(** * merge.py: normalising and merging spreadsheet annotation cells

    A shallow embedding of [src/merge.py]: the value normaliser
    [parse_list_column], the two field mergers [merge_list_columns] and
    [merge_sentiment_columns], and the row loop that writes the merged
    fields back into the primary table.

    Python values are dynamically typed, so the embedding starts with the
    universe of cell values; exceptions are explicit ([result]); the
    library behaviour the script does not fix (what [ast.literal_eval]
    returns, the truth value of an empty NumPy array, [str()] of a list,
    the longest integer [str] converts) is a record [pylib] that every function takes as an argument, so that
    what is proved holds for every such library. *)

From Stdlib Require Import ZArith Ascii DecimalString.
From stdpp Require Import base option list gmap sets strings.

Local Open Scope stdpp_scope.

(** ** Python values *)

(** The values a cell, or an item of a list cell, can hold.  [SOther] is
    any object that is not a string, not a sequence and not a missing
    marker (a float, a timestamp, a dict, ...), on which [str] returns,
    known by its [str()]; it compares unequal to every string. *)
Inductive scalar : Type :=
| SNone
| SNaN
| SBool (b : bool)
| SInt (n : Z)
| SStr (s : string)
| SOther (txt : string).

(** A value handed to the functions of the script: a scalar, or a native
    list of scalars.  (Nested lists and tuples are outside the model.) *)
Inductive pyval : Type :=
| PScalar (x : scalar)
| PList (items : list scalar).

Abbreviation PStr s := (PScalar (SStr s)).
Abbreviation PNone := (PScalar SNone).
Abbreviation PNaN := (PScalar SNaN).

Global Instance scalar_eq_dec : EqDecision scalar.
Proof. solve_decision. Defined.
Global Instance pyval_eq_dec : EqDecision pyval.
Proof. solve_decision. Defined.

(** ** Exceptions *)

Inductive exn : Type := ValueError | KeyError.

Inductive result (A : Type) : Type :=
| Ok (a : A)
| Raise (e : exn).
Arguments Ok {A} a.
Arguments Raise {A} e.

Global Instance result_ret : MRet result := @Ok.
Global Instance result_bind : MBind result := λ A B f m,
  match m with
  | Ok a => f a
  | Raise e => Raise e
  end.

(** ** Strings: [str.strip], [str.split], [str.join]

    A Python [str] is modelled by a [string] whose characters are its code
    points, all below 256. *)

(** [str.isspace] on one code point below 256: TAB, LF, VT, FF, CR, the
    separators FS, GS, RS, US, the space, NEL and the no-break space. *)
Definition py_isspace (c : ascii) : bool :=
  let n := N_of_ascii c in
  ((9 <=? n) && (n <=? 13) || (28 <=? n) && (n <=? 32)
   || (n =? 133) || (n =? 160))%N.

Fixpoint lstrip (s : string) : string :=
  match s with
  | EmptyString => EmptyString
  | String c s' => if py_isspace c then lstrip s' else s
  end.

Fixpoint rstrip (s : string) : string :=
  match s with
  | EmptyString => EmptyString
  | String c s' =>
      match rstrip s' with
      | EmptyString => if py_isspace c then EmptyString else String c EmptyString
      | r => String c r
      end
  end.

(** [s.strip()] *)
Definition strip (s : string) : string := rstrip (lstrip s).

(** [s.split(sep)] for a one-character separator: never empty, one piece
    more than there are separators. *)
Fixpoint split (sep : ascii) (s : string) : list string :=
  match s with
  | EmptyString => [EmptyString]
  | String c s' =>
      if decide (c = sep) then EmptyString :: split sep s'
      else match split sep s' with
           | [] => [String c EmptyString]
           | p :: ps => String c p :: ps
           end
  end.

(** [sep.join(l)] *)
Fixpoint join (sep : string) (l : list string) : string :=
  match l with
  | [] => ""
  | [p] => p
  | p :: ps => p +:+ sep +:+ join sep ps
  end.

(** [str(x)] of a scalar, where [str] returns; on which integers it raises
    is [str_raises] below. *)
Definition py_str (x : scalar) : string :=
  match x with
  | SNone => "None"
  | SNaN => "nan"
  | SBool true => "True"
  | SBool false => "False"
  | SInt n => NilZero.string_of_int (Z.to_int n)
  | SStr s => s
  | SOther txt => txt
  end.

(** ** Library behaviour the script relies on *)

Record pylib : Type := {
  (** [ast.literal_eval]: the value of a literal, [None] when it raises. *)
  literal_eval : string → option pyval;
  (** [bool(numpy.array([]))]: [False] with a deprecation warning up to
      NumPy 2.1, a [ValueError] from NumPy 2.2 on. *)
  bool_of_empty_array : result bool;
  (** [str()] of a native list. *)
  str_of_list : list scalar → string;
  (** [sys.get_int_max_str_digits()]: the longest integer, in decimal
      digits, that [str] converts; 4300 by default in Python 3.11 and
      later (and in the security releases of 3.7 to 3.10), 0 when there
      is no limit. *)
  int_max_str_digits : N
}.

(** [str(x)] raises [ValueError] on an integer of more decimal digits than
    the limit, when there is one. *)
Definition str_raises (L : pylib) (x : scalar) : bool :=
  match x with
  | SInt n =>
      (0 <? int_max_str_digits L)%N
      && (10 ^ Z.of_N (int_max_str_digits L) <=? Z.abs n)%Z
  | _ => false
  end.

(** [pd.isna] answers with one boolean on a scalar and with an array of
    booleans, one per item, on a list. *)
Inductive isna_result : Type :=
| IsnaBool (b : bool)
| IsnaArray (bs : list bool).

Definition is_null (x : scalar) : bool :=
  match x with
  | SNone | SNaN => true
  | _ => false
  end.

Definition pd_isna (value : pyval) : isna_result :=
  match value with
  | PScalar x => IsnaBool (is_null x)
  | PList items => IsnaArray (is_null <$> items)
  end.

(** The truth value Python takes of [pd.isna(value)] in [... or ...]: an
    array of two or more elements has none and raises [ValueError]. *)
Definition truth (L : pylib) (r : isna_result) : result bool :=
  match r with
  | IsnaBool b => Ok b
  | IsnaArray [] => bool_of_empty_array L
  | IsnaArray [b] => Ok b
  | IsnaArray (_ :: _ :: _) => Raise ValueError
  end.

(** [value == s] for a string constant [s]. *)
Definition py_eq_str (value : pyval) (s : string) : bool :=
  match value with
  | PScalar (SStr t) => bool_decide (t = s)
  | _ => false
  end.

(** ** The value normaliser (merge.py, lines 5-21) *)

Definition parse_list_column (L : pylib) (value : pyval) : result (list scalar) :=
  na ← truth L (pd_isna value);
  if na || py_eq_str value "" || py_eq_str value "---" then Ok []
  else
    match value with
    | PList items => Ok items
    | PScalar (SStr s) =>
        match literal_eval L s with
        | Some (PList parsed) => Ok parsed
        | Some (PScalar parsed) => Ok [parsed]
        | None => Ok (if decide (strip s = "") then [] else [SStr s])
        end
    | PScalar _ => Ok []
    end.

(** ** The list merger (merge.py, lines 23-43) *)

(** [str(item)] at lines 30 and 38, outside any [try]. *)
Definition str_item (L : pylib) (item : scalar) : result string :=
  if str_raises L item then Raise ValueError else Ok (py_str item).

(** The trimmed-string identity of an item whose [str] returns:
    [str(item).strip()]. *)
Definition item_str (item : scalar) : string := strip (py_str item).

(** The two accumulators of the loops: [result] and [seen]. *)
Record merge_state (A : Type) : Type := MergeState {
  st_result : list A;
  st_seen : gset string
}.
Arguments MergeState {A} _ _.
Arguments st_result {A} _.
Arguments st_seen {A} _.

(** The body of the inner loop:
    [item_str = str(item).strip()]
    [if item_str and item_str not in seen: result.append(item); seen.add(item_str)] *)
Definition add_item (L : pylib) (st : merge_state scalar) (item : scalar)
  : result (merge_state scalar) :=
  s ← str_item L item;
  let item_str := strip s in
  Ok (if bool_decide (item_str ≠ "") && bool_decide (item_str ∉ st_seen st)
      then MergeState (st_result st ++ [item]) ({[item_str]} ∪ st_seen st)
      else st).

(** [for item in items: ...] *)
Fixpoint add_items (L : pylib) (st : merge_state scalar) (items : list scalar)
  : result (merge_state scalar) :=
  match items with
  | [] => Ok st
  | item :: rest =>
      st' ← add_item L st item;
      add_items L st' rest
  end.

(** [for val in other_vals: for item in parse_list_column(val): ...] *)
Fixpoint merge_others (L : pylib) (other_vals : list pyval) (st : merge_state scalar)
  : result (merge_state scalar) :=
  match other_vals with
  | [] => Ok st
  | val :: rest =>
      items ← parse_list_column L val;
      st' ← add_items L st items;
      merge_others L rest st'
  end.

Definition merge_list_columns (L : pylib) (main_val : pyval) (other_vals : list pyval)
  : result (list scalar) :=
  items ← parse_list_column L main_val;
  st ← add_items L (MergeState [] ∅) items;
  st ← merge_others L other_vals st;
  Ok (st_result st).

(** ** The sentiment merger (merge.py, lines 45-61) *)

(** [str(val)] of a cell or of a list.  (No integer of a spreadsheet cell
    is beyond the limit of [str].) *)
Definition py_str_val (L : pylib) (val : pyval) : string :=
  match val with
  | PScalar x => py_str x
  | PList items => str_of_list L items
  end.

(** [if item and item != 'neutral' and item not in seen: ...] *)
Definition add_sentiment (st : merge_state string) (item : string) : merge_state string :=
  if bool_decide (item ≠ "") && bool_decide (item ≠ "neutral")
     && bool_decide (item ∉ st_seen st)
  then MergeState (st_result st ++ [item]) ({[item]} ∪ st_seen st)
  else st.

Definition add_sentiments (st : merge_state string) (items : list string) : merge_state string :=
  foldl add_sentiment st items.

(** [for val in all_vals: ...] *)
Fixpoint merge_sentiment_loop (L : pylib) (all_vals : list pyval) (st : merge_state string)
  : result (merge_state string) :=
  match all_vals with
  | [] => Ok st
  | val :: rest =>
      na ← truth L (pd_isna val);
      if na || py_eq_str val "" || py_eq_str val "neutral"
      then merge_sentiment_loop L rest st
      else
        let items := strip <$> split "," (py_str_val L val) in
        merge_sentiment_loop L rest (add_sentiments st items)
  end.

Definition merge_sentiment_columns (L : pylib) (main_val : pyval) (other_vals : list pyval)
  : result string :=
  st ← merge_sentiment_loop L (main_val :: other_vals) (MergeState [] ∅);
  Ok (join ", " (st_result st)).

(** ** The tables and the row loop (merge.py, lines 63-111)

    A table is the list of its rows, a row maps column names to cells; the
    index of a freshly read table is the row position.  Two things pandas
    does are outside this model: the type of a column ([.at] may refuse a
    value that does not fit it, or store another one) and the conversion
    of a row to one type by [iloc].  Below, the model is used only for
    which cells the loop reads and for when it raises. *)

(** [df.at[idx, col]]: a [KeyError] when the row or the column is absent. *)
Definition at_get (df : list (gmap string pyval)) (idx : nat) (col : string)
  : result pyval :=
  match df !! idx with
  | Some r =>
      match r !! col with
      | Some v => Ok v
      | None => Raise KeyError
      end
  | None => Raise KeyError
  end.

(** [df.at[idx, col] = v] on an existing row, as on a column that takes
    any object. *)
Definition at_set (df : list (gmap string pyval)) (idx : nat) (col : string) (v : pyval)
  : list (gmap string pyval) :=
  alter (<[col := v]>) idx df.

(** [row.get(col)]: [None] when the column is absent. *)
Definition row_get (r : gmap string pyval) (col : string) : pyval :=
  default PNone (r !! col).

(** [cols.extend([row.get(c1), row.get(c2)])] under [if row is not None]. *)
Definition pair_cols (sheet_row : option (gmap string pyval)) (c1 c2 : string)
  : list pyval :=
  match sheet_row with
  | Some r => [row_get r c1; row_get r c2]
  | None => []
  end.

(** [for col in cols: if col in row: objects_cols.append(row.get(col))]
    under [if row is not None]. *)
Definition present_cols (sheet_row : option (gmap string pyval)) (cols : list string)
  : list pyval :=
  match sheet_row with
  | Some r => row_get r <$> filter (λ col, is_Some (r !! col)) cols
  | None => []
  end.

Definition people_cols (sheet1_row sheet2_row : option (gmap string pyval)) : list pyval :=
  pair_cols sheet1_row "people" "people_02" ++ pair_cols sheet2_row "people" "people_02".

Definition places_cols (sheet1_row sheet2_row : option (gmap string pyval)) : list pyval :=
  pair_cols sheet1_row "places" "places_02" ++ pair_cols sheet2_row "places" "places_02".

Definition sentiments_cols (sheet1_row sheet2_row : option (gmap string pyval)) : list pyval :=
  pair_cols sheet1_row "Sentiments" "Sentiments_02"
  ++ pair_cols sheet2_row "Sentiments" "Sentiments_02".

Definition objects_cols (sheet1_row sheet2_row : option (gmap string pyval)) : list pyval :=
  present_cols sheet1_row
    ["original_objects"; "objects"; "objects_02"; "objects_03"; "objects_04"; "objects_05"]
  ++ present_cols sheet2_row
    ["objects"; "objects_02"; "objects_03"; "objects_04"; "objects_05"].

(** The body of [for idx in range(len(output_df))]. *)
Definition merge_row (L : pylib) (sheet1_df sheet2_df output_df : list (gmap string pyval))
  (idx : nat) : result (list (gmap string pyval)) :=
  let sheet1_row := sheet1_df !! idx in
  let sheet2_row := sheet2_df !! idx in
  main ← at_get output_df idx "people";
  people ← merge_list_columns L main (people_cols sheet1_row sheet2_row);
  let output_df := at_set output_df idx "people" (PList people) in
  main ← at_get output_df idx "places";
  places ← merge_list_columns L main (places_cols sheet1_row sheet2_row);
  let output_df := at_set output_df idx "places" (PList places) in
  main ← at_get output_df idx "sentiments";
  sentiments ← merge_sentiment_columns L main (sentiments_cols sheet1_row sheet2_row);
  let output_df := at_set output_df idx "sentiments" (PStr sentiments) in
  main ← at_get output_df idx "objects";
  objects ← merge_list_columns L main (objects_cols sheet1_row sheet2_row);
  Ok (at_set output_df idx "objects" (PList objects)).

Fixpoint merge_rows (L : pylib) (sheet1_df sheet2_df : list (gmap string pyval))
  (idxs : list nat) (output_df : list (gmap string pyval))
  : result (list (gmap string pyval)) :=
  match idxs with
  | [] => Ok output_df
  | idx :: rest =>
      output_df ← merge_row L sheet1_df sheet2_df output_df idx;
      merge_rows L sheet1_df sheet2_df rest output_df
  end.

(** [output_df = main_df.copy()] and the loop over its row numbers. *)
Definition merge_tables (L : pylib) (main_df sheet1_df sheet2_df : list (gmap string pyval))
  : result (list (gmap string pyval)) :=
  merge_rows L sheet1_df sheet2_df (seq 0 (length main_df)) main_df.

(** The fields the loop writes. *)
Definition merged_fields : list string := ["people"; "places"; "sentiments"; "objects"].

(** ** A library instance for the examples

    The outcomes of [ast.literal_eval] on the literals the examples use;
    on every other string this instance raises, as Python does on the
    other strings of the examples ([Bob], [ a b ], [---], ...). *)

(** The text [0xfff...f] with 3600 digits [f]: the literal of an integer
    of 4335 decimal digits. *)
Definition hex_cell : string :=
  "0x" +:+ String.concat "" (replicate 3600 "f").

Definition known_literals : list (string * pyval) :=
  [ ("['Alice']", PList [SStr "Alice"]);
    ("['a', 'b']", PList [SStr "a"; SStr "b"]);
    ("None", PNone);
    ("12", PScalar (SInt 12));
    (hex_cell, PScalar (SInt (2 ^ 14400 - 1))) ].

Fixpoint lookup_literal (s : string) (table : list (string * pyval)) : option pyval :=
  match table with
  | [] => None
  | (k, v) :: rest => if decide (k = s) then Some v else lookup_literal s rest
  end.

(** [repr] of an item, exact when a string holds no quote, backslash or
    control character. *)
Definition example_repr (x : scalar) : string :=
  match x with
  | SStr s => "'" +:+ s +:+ "'"
  | _ => py_str x
  end.

Definition example_lib : pylib := {|
  literal_eval s := lookup_literal s known_literals;
  bool_of_empty_array := Ok false;
  str_of_list items := "[" +:+ join ", " (example_repr <$> items) +:+ "]";
  int_max_str_digits := 4300
|}.

(** ** The mergers in the words of the specification *)

(** Of the items that share a key, keep the first. *)
Fixpoint first_by_key {A : Type} (key : A → string) (l : list A) : list A :=
  match l with
  | [] => []
  | x :: l' => x :: filter (λ y, key y ≠ key x) (first_by_key key l')
  end.

(** A contributing value is skipped when missing, empty or ["neutral"]. *)
Definition sentiment_skipped (x : scalar) : bool :=
  is_null x || bool_decide (x = SStr "") || bool_decide (x = SStr "neutral").

(** The pieces of a value: split on commas, trimmed, without the empty
    and the ["neutral"] ones. *)
Definition sentiment_pieces (x : scalar) : list string :=
  filter (λ p, p ≠ "" ∧ p ≠ "neutral") (strip <$> split "," (py_str x)).

Definition spec_merge_sentiments (vals : list scalar) : string :=
  join ", "
    (first_by_key id
       (concat (sentiment_pieces <$> filter (λ x, sentiment_skipped x = false) vals))).

(** The fallback in the words of the specification, section 4.1: the
    trimmed string as the only item. *)
Definition claimed_fallback (s : string) : list scalar :=
  if decide (strip s = "") then [] else [SStr (strip s)].

(** Whether a character occurs in a string. *)
Fixpoint has_char (c : ascii) (s : string) : bool :=
  match s with
  | EmptyString => false
  | String a s' => bool_decide (a = c) || has_char c s'
  end.

(** A string that does not start with white space. *)
Definition starts_clean (s : string) : Prop :=
  match s with
  | EmptyString => True
  | String c _ => py_isspace c = false
  end.

(** The common shape of the two inner loops: append [x] when it is kept and
    its key is unseen. *)
Definition add_by {A : Type} (key : A → string) (keep : A → bool)
  (st : merge_state A) (x : A) : merge_state A :=
  if keep x && bool_decide (key x ∉ st_seen st)
  then MergeState (st_result st ++ [x]) ({[key x]} ∪ st_seen st)
  else st.

Definition keep_item (item : scalar) : bool := bool_decide (item_str item ≠ "").

Definition keep_sentiment (item : string) : bool :=
  bool_decide (item ≠ "") && bool_decide (item ≠ "neutral").

(** The pieces a value contributes before any is dropped. *)
Definition raw_pieces (L : pylib) (val : pyval) : list string :=
  strip <$> split "," (py_str_val L val).

(** A piece as the sentiment loop produces them: trimmed and comma-free. *)
Definition clean_piece (p : string) : Prop :=
  strip p = p ∧ has_char "," p = false.

(** What the loop body does to the one row it reads and writes. *)
Definition cell (r : gmap string pyval) (col : string) : result pyval :=
  match r !! col with
  | Some v => Ok v
  | None => Raise KeyError
  end.

Definition merge_row_cells (L : pylib) (sheet1_row sheet2_row : option (gmap string pyval))
  (r : gmap string pyval) : result (gmap string pyval) :=
  main ← cell r "people";
  people ← merge_list_columns L main (people_cols sheet1_row sheet2_row);
  let r := <["people" := PList people]> r in
  main ← cell r "places";
  places ← merge_list_columns L main (places_cols sheet1_row sheet2_row);
  let r := <["places" := PList places]> r in
  main ← cell r "sentiments";
  sentiments ← merge_sentiment_columns L main (sentiments_cols sheet1_row sheet2_row);
  let r := <["sentiments" := PStr sentiments]> r in
  main ← cell r "objects";
  objects ← merge_list_columns L main (objects_cols sheet1_row sheet2_row);
  Ok (<["objects" := PList objects]> r).

Definition has_merged_fields (df : list (gmap string pyval)) : Prop :=
  Forall (λ r : gmap string pyval, Forall (λ col, is_Some (r !! col)) merged_fields) df.

(** What a merged row is, against the row it comes from. *)
Definition row_merged (L : pylib) (sheet1_row sheet2_row : option (gmap string pyval))
  (r r' : gmap string pyval) : Prop :=
  dom r' = dom r
  ∧ (∀ col, col ∉ merged_fields → r' !! col = r !! col)
  ∧ (∃ v people,
       r !! "people" = Some v
       ∧ merge_list_columns L v (people_cols sheet1_row sheet2_row) = Ok people
       ∧ r' !! "people" = Some (PList people))
  ∧ (∃ v places,
       r !! "places" = Some v
       ∧ merge_list_columns L v (places_cols sheet1_row sheet2_row) = Ok places
       ∧ r' !! "places" = Some (PList places))
  ∧ (∃ v sentiments,
       r !! "sentiments" = Some v
       ∧ merge_sentiment_columns L v (sentiments_cols sheet1_row sheet2_row) = Ok sentiments
       ∧ r' !! "sentiments" = Some (PStr sentiments))
  ∧ (∃ v objects,
       r !! "objects" = Some v
       ∧ merge_list_columns L v (objects_cols sheet1_row sheet2_row) = Ok objects
       ∧ r' !! "objects" = Some (PList objects)).

(** The items the inputs of a merge contribute, end to end; an input the
    normaliser rejects contributes none. *)
Definition items_of (L : pylib) (val : pyval) : list scalar :=
  match parse_list_column L val with
  | Ok items => items
  | Raise _ => []
  end.

Definition all_items (L : pylib) (vals : list pyval) : list scalar :=
  concat (items_of L <$> vals).

(** An input the list merger gets through: the normaliser returns on it
    and [str] returns on each of its items. *)
Definition accepted (L : pylib) (val : pyval) : Prop :=
  ∃ items, parse_list_column L val = Ok items
           ∧ Forall (λ x, str_raises L x = false) items.

(** Two small tables for the examples. *)
Definition example_main : list (gmap string pyval) :=
  [ {[ "title" := PStr "Ode"; "people" := PStr "['Alice']"; "places" := PNaN;
       "sentiments" := PStr "happy"; "objects" := PStr "---" ]};
    {[ "title" := PStr "Elegy"; "people" := PNaN; "places" := PStr "Rome";
       "sentiments" := PStr "neutral"; "objects" := PNaN ]} ].

Definition example_sheet1 : list (gmap string pyval) :=
  [ {[ "people" := PStr "Bob"; "people_02" := PStr "Alice"; "places" := PNaN;
       "Sentiments" := PStr "sad, happy"; "original_objects" := PStr "chair";
       "objects" := PStr "table" ]} ].

(** ** Examples *)

Example ex_strip : strip "  a b  " = "a b".
Proof. reflexivity. Qed.

Example ex_split : split "," "happy, sad,,x" = ["happy"; " sad"; ""; "x"].
Proof. reflexivity. Qed.

Example ex_py_str_int : py_str (SInt (-120)) = "-120".
Proof. vm_compute. reflexivity. Qed.

Example ex_parse_literal :
  parse_list_column example_lib (PStr "['Alice']") = Ok [SStr "Alice"].
Proof. vm_compute. reflexivity. Qed.

(** The scenario of the specification, section 8. *)
Example ex_merge_scenario :
  merge_list_columns example_lib (PStr "['Alice']") [PStr "Bob"; PStr "Alice"]
  = Ok [SStr "Alice"; SStr "Bob"].
Proof. vm_compute. reflexivity. Qed.

Example ex_spec_sentiments :
  spec_merge_sentiments [SStr "happy, sad"; SNaN; SStr "neutral"; SStr "sad , joy,"]
  = "happy, sad, joy".
Proof. vm_compute. reflexivity. Qed.

(** ** Strings *)

Lemma append_nil_l (t : string) : "" +:+ t = t.
Proof. reflexivity. Qed.

Lemma append_cons (c : ascii) (s t : string) : String c s +:+ t = String c (s +:+ t).
Proof. reflexivity. Qed.

Lemma rstrip_cons (c : ascii) (s : string) :
  rstrip (String c s)
  = match rstrip s with
    | EmptyString => if py_isspace c then EmptyString else String c EmptyString
    | r => String c r
    end.
Proof. reflexivity. Qed.

Lemma rstrip_idemp (s : string) : rstrip (rstrip s) = rstrip s.
Proof.
  induction s as [|c s IH]; [done|].
  rewrite rstrip_cons. destruct (rstrip s) as [|d r] eqn:Hr.
  - destruct (py_isspace c) eqn:Hc; [done|].
    rewrite rstrip_cons. cbn [rstrip]. by rewrite Hc.
  - rewrite rstrip_cons, IH. done.
Qed.

Lemma lstrip_starts_clean (s : string) : starts_clean (lstrip s).
Proof.
  induction s as [|c s IH]; [done|].
  cbn [lstrip]. destruct (py_isspace c) eqn:Hc; [done|]. exact Hc.
Qed.

Lemma lstrip_clean (s : string) : starts_clean s → lstrip s = s.
Proof. destruct s as [|c s]; [done|]. cbn. by intros ->. Qed.

Lemma rstrip_starts_clean (s : string) : starts_clean s → starts_clean (rstrip s).
Proof.
  destruct s as [|c s]; [done|]. cbn [starts_clean rstrip]. intros Hc.
  destruct (rstrip s); [by rewrite Hc|done].
Qed.

Lemma strip_idemp (s : string) : strip (strip s) = strip s.
Proof.
  unfold strip.
  rewrite (lstrip_clean (rstrip (lstrip s))).
  - apply rstrip_idemp.
  - apply rstrip_starts_clean, lstrip_starts_clean.
Qed.

Lemma strip_space_cons (s : string) : strip (String " " s) = strip s.
Proof. reflexivity. Qed.

Lemma has_char_lstrip (c : ascii) (s : string) :
  has_char c s = false → has_char c (lstrip s) = false.
Proof.
  induction s as [|a s IH]; [done|].
  cbn [lstrip]. destruct (py_isspace a); [|done].
  cbn [has_char]. intros [_ ?]%orb_false_iff. auto.
Qed.

Lemma has_char_rstrip (c : ascii) (s : string) :
  has_char c s = false → has_char c (rstrip s) = false.
Proof.
  induction s as [|a s IH]; [done|].
  cbn [has_char rstrip]. intros [Ha Hs]%orb_false_iff.
  specialize (IH Hs). destruct (rstrip s) as [|d r].
  - destruct (py_isspace a); [done|]. cbn. by rewrite Ha.
  - cbn [has_char] in *. by rewrite Ha.
Qed.

Lemma has_char_strip (c : ascii) (s : string) :
  has_char c s = false → has_char c (strip s) = false.
Proof. intros. by apply has_char_rstrip, has_char_lstrip. Qed.

Lemma split_pieces_clean (sep : ascii) (s p : string) :
  p ∈ split sep s → has_char sep p = false.
Proof.
  revert p. induction s as [|a s IH]; intros p.
  - cbn. by intros ->%list_elem_of_singleton.
  - cbn [split]. case_decide as Ha.
    + intros [->|?]%elem_of_cons; [done|auto].
    + destruct (split sep s) as [|q qs] eqn:Hq.
      * intros ->%list_elem_of_singleton. cbn. by rewrite bool_decide_eq_false_2.
      * intros [->|?]%elem_of_cons.
        -- cbn. rewrite bool_decide_eq_false_2; [|done]. apply IH. by left.
        -- apply IH. by right.
Qed.

Lemma split_clean (sep : ascii) (s : string) :
  has_char sep s = false → split sep s = [s].
Proof.
  induction s as [|a s IH]; [done|].
  cbn [has_char split]. intros [Ha Hs]%orb_false_iff.
  apply bool_decide_eq_false in Ha. rewrite decide_False; [|done].
  by rewrite (IH Hs).
Qed.

Lemma split_app_sep (sep : ascii) (p q : string) :
  has_char sep p = false → split sep (p +:+ String sep q) = p :: split sep q.
Proof.
  induction p as [|a p IH].
  - intros _. rewrite append_nil_l. cbn [split]. by rewrite decide_True.
  - cbn [has_char]. intros [Ha Hp]%orb_false_iff.
    apply bool_decide_eq_false in Ha.
    rewrite append_cons. cbn [split]. rewrite decide_False; [|done].
    by rewrite (IH Hp).
Qed.

(** Splitting a joined list of comma-free pieces gives the pieces back,
    all but the first behind the space of the separator. *)
Lemma split_join (p : string) (ps : list string) :
  Forall (λ q, has_char "," q = false) (p :: ps) →
  split "," (join ", " (p :: ps)) = p :: (String " " <$> ps).
Proof.
  revert p. induction ps as [|q qs IH]; intros p Hall.
  - cbn [join fmap list_fmap]. apply split_clean. by inversion Hall.
  - inversion Hall as [|? ? Hp Hrest]; subst.
    change (join ", " (p :: q :: qs))
      with (p +:+ String "," (String " " (join ", " (q :: qs)))).
    rewrite (split_app_sep _ _ _ Hp).
    cbn [split]. rewrite decide_False; [|done].
    by rewrite (IH q Hrest).
Qed.

Lemma has_char_app (c : ascii) (s t : string) :
  has_char c (s +:+ t) = has_char c s || has_char c t.
Proof.
  induction s as [|a s IH]; [done|].
  rewrite append_cons. cbn [has_char]. rewrite IH. by rewrite orb_assoc.
Qed.

(** ** Deduplication by key *)

Section dedup.
Context {A : Type} (key : A → string) (keep : A → bool).

Lemma filter_all (P : A → Prop) `{!∀ x, Decision (P x)} (l : list A) :
  Forall P l → filter P l = l.
Proof.
  induction 1 as [|x l Hx _ IH]; [done|].
  by rewrite filter_cons_True, IH.
Qed.

Lemma first_by_key_sublist (l : list A) : first_by_key key l `sublist_of` l.
Proof.
  induction l as [|x l IH]; [done|].
  cbn [first_by_key]. apply sublist_skip.
  etrans; [apply sublist_filter|done].
Qed.

Lemma first_by_key_keys (l : list A) (k : string) :
  k ∈ key <$> first_by_key key l ↔ k ∈ key <$> l.
Proof.
  induction l as [|x l IH]; [done|].
  cbn [first_by_key]. rewrite !fmap_cons, !elem_of_cons, <-IH.
  rewrite !list_elem_of_fmap. setoid_rewrite list_elem_of_filter.
  split.
  - intros [?|(y & -> & _ & ?)]; [by left|right; eauto].
  - intros [?|(y & -> & ?)]; [by left|].
    destruct (decide (key y = key x)); [by left|right; eauto].
Qed.

Lemma first_by_key_NoDup (l : list A) : NoDup (key <$> first_by_key key l).
Proof.
  induction l as [|x l IH]; [constructor|].
  cbn [first_by_key]. rewrite fmap_cons. constructor.
  - rewrite list_elem_of_fmap. intros (y & Hk & Hy).
    apply list_elem_of_filter in Hy as [Hne _]. by apply Hne.
  - eapply sublist_NoDup; [exact IH|].
    apply fmap_sublist, sublist_filter.
Qed.

Lemma first_by_key_id (l : list A) : NoDup (key <$> l) → first_by_key key l = l.
Proof.
  induction l as [|x l IH]; [done|].
  rewrite fmap_cons. intros [Hx Hl]%NoDup_cons.
  cbn [first_by_key]. rewrite (IH Hl). f_equal.
  apply filter_all, Forall_forall. intros y Hy Heq.
  apply Hx. rewrite <-Heq. by apply list_elem_of_fmap_2.
Qed.


(** The loop with its [seen] set computes [first_by_key] of the kept items. *)
Lemma foldl_add_by (l : list A) (st : merge_state A) :
  st_result (foldl (add_by key keep) st l)
  = st_result st
    ++ filter (λ y, key y ∉ st_seen st)
         (first_by_key key (filter (λ y, keep y = true) l)).
Proof.
  revert st. induction l as [|x l IH]; intros st.
  - cbn. by rewrite app_nil_r.
  - cbn [foldl]. rewrite IH. unfold add_by.
    destruct (keep x) eqn:Hx; cbn [andb].
    + rewrite (filter_cons_True (λ y, keep y = true)); [|done].
      cbn [first_by_key].
      case_bool_decide as Hseen; cbn [st_result st_seen].
      * rewrite filter_cons_True; [|done].
        rewrite <-app_assoc. cbn [app]. do 2 f_equal.
        rewrite list_filter_filter. apply list_filter_iff.
        intros y. rewrite not_elem_of_union, not_elem_of_singleton. tauto.
      * rewrite filter_cons_False; [|by intros ?].
        f_equal. rewrite list_filter_filter. apply list_filter_iff.
        intros y. split; [|by intros [? _]].
        intros Hy. split; [done|]. intros Heq. apply Hy. rewrite Heq.
        done.
    + rewrite (filter_cons_False (λ y, keep y = true)); [done|].
      by rewrite Hx.
Qed.

Lemma foldl_add_by_empty (l : list A) :
  st_result (foldl (add_by key keep) (MergeState [] ∅) l)
  = first_by_key key (filter (λ y, keep y = true) l).
Proof.
  rewrite foldl_add_by. cbn [st_result st_seen app].
  apply filter_all, Forall_forall. intros y _. apply not_elem_of_empty.
Qed.

End dedup.

(** ** The value normaliser *)

Lemma parse_list_column_scalar (L : pylib) (x : scalar) :
  parse_list_column L (PScalar x)
  = Ok match x with
       | SStr s =>
           if decide (s = "" ∨ s = "---") then []
           else match literal_eval L s with
                | Some (PList parsed) => parsed
                | Some (PScalar parsed) => [parsed]
                | None => if decide (strip s = "") then [] else [SStr s]
                end
       | _ => []
       end.
Proof.
  destruct x as [| | | |s|]; try reflexivity.
  unfold parse_list_column. cbn [pd_isna truth is_null mbind result_bind orb py_eq_str].
  destruct (decide (s = "" ∨ s = "---")) as [Hs|Hs].
  - destruct Hs as [-> | ->]; reflexivity.
  - rewrite !bool_decide_eq_false_2 by tauto. cbn [orb].
    by destruct (literal_eval L s) as [[]|].
Qed.

Lemma parse_list_column_scalar_ok (L : pylib) (x : scalar) :
  ∃ items, parse_list_column L (PScalar x) = Ok items.
Proof. rewrite parse_list_column_scalar. eauto. Qed.

Lemma parse_list_column_long_list (L : pylib) (x y : scalar) (items : list scalar) :
  parse_list_column L (PList (x :: y :: items)) = Raise ValueError.
Proof. reflexivity. Qed.

Lemma parse_list_column_raises_inv (L : pylib) (value : pyval) (e : exn) :
  parse_list_column L value = Raise e →
  ∃ items, value = PList items ∧ length items ≠ 1.
Proof.
  destruct value as [x|items].
  - destruct (parse_list_column_scalar_ok L x) as [l ->]. done.
  - intros Hraise. exists items. split; [done|].
    destruct items as [|x [|y items]]; [done| |done].
    by destruct x.
Qed.

(** C1 (the code departs from the claim).  On every value that is not a
    native list, [parse_list_column] returns a sequence and raises nothing;
    on every native list of two or more items it raises [ValueError]: the
    test [pd.isna(value) or ...] of line 7 comes before the list test of
    line 9 and takes the truth value of an array.  It raises on nothing
    but native lists. *)
Theorem parse_list_column_raises_on_lists (L : pylib) :
  (∀ x, ∃ items, parse_list_column L (PScalar x) = Ok items)
  ∧ (∀ x y items, parse_list_column L (PList (x :: y :: items)) = Raise ValueError)
  ∧ parse_list_column L (PList [SStr "a"; SStr "b"]) = Raise ValueError
  ∧ (∀ value e, parse_list_column L value = Raise e →
       ∃ items, value = PList items ∧ length items ≠ 1).
Proof.
  split; [|split; [|split]].
  - apply parse_list_column_scalar_ok.
  - apply parse_list_column_long_list.
  - apply parse_list_column_long_list.
  - apply parse_list_column_raises_inv.
Qed.

(** C7 (the code departs from the claim).  What [parse_list_column] does
    on a native list: [ValueError] on two or more items; a one-item list is
    returned unchanged unless its item is a missing marker, and then the
    empty list is returned; the empty list comes back only if NumPy gives
    an empty array a truth value. *)
Theorem parse_list_column_on_list (L : pylib) (items : list scalar) :
  parse_list_column L (PList items)
  = match items with
    | [] => _ ← bool_of_empty_array L; Ok []
    | [x] => Ok (if is_null x then [] else [x])
    | _ :: _ :: _ => Raise ValueError
    end.
Proof.
  destruct items as [|x [|y items]]; [|by destruct x|done].
  unfold parse_list_column. cbn [pd_isna fmap list_fmap truth].
  by destruct (bool_of_empty_array L) as [[]|].
Qed.

(** C2 (the code departs from the claim).  Normalising twice is not
    normalising once: when a string is the literal of a list of two or
    more items, the first pass returns that list and the second pass, on
    the list, raises [ValueError]. *)
Theorem parse_list_column_twice_raises (L : pylib) (s : string) (parsed : list scalar) :
  literal_eval L s = Some (PList parsed) →
  s ≠ "" → s ≠ "---" →
  2 ≤ length parsed →
  parse_list_column L (PStr s) = Ok parsed
  ∧ parse_list_column L (PList parsed) = Raise ValueError.
Proof.
  intros Hlit H1 H2 Hlen. split.
  - rewrite parse_list_column_scalar. rewrite decide_False by tauto.
    by rewrite Hlit.
  - destruct parsed as [|x [|y parsed]]; cbn in Hlen; [lia..|].
    apply parse_list_column_long_list.
Qed.

Lemma parse_list_column_twice_raises_witness :
  parse_list_column example_lib (PStr "['a', 'b']") = Ok [SStr "a"; SStr "b"]
  ∧ parse_list_column example_lib (PList [SStr "a"; SStr "b"]) = Raise ValueError.
Proof.
  apply (parse_list_column_twice_raises example_lib "['a', 'b']" [SStr "a"; SStr "b"]).
  - reflexivity.
  - discriminate.
  - discriminate.
  - cbn. lia.
Defined.

(** C3, as the claim states it, fails at [" a b "] (the item is the string
    itself, not trimmed) and at ["---"] (the placeholder gives the empty
    list before any parsing). *)
Lemma parse_list_column_fallback_counterexample :
  (literal_eval example_lib " a b " = None
   ∧ parse_list_column example_lib (PStr " a b ") = Ok [SStr " a b "]
   ∧ claimed_fallback " a b " = [SStr "a b"])
  ∧ (literal_eval example_lib "---" = None
     ∧ parse_list_column example_lib (PStr "---") = Ok []
     ∧ claimed_fallback "---" = [SStr "---"]).
Proof. repeat split; vm_compute; reflexivity. Qed.

(** C3 (amended).  For a string on which literal parsing fails, other than
    the placeholder ["---"], [parse_list_column] returns the string itself,
    untrimmed, as the only item, and the empty sequence when the trimmed
    string is empty. *)
Theorem parse_list_column_fallback (L : pylib) (s : string) :
  literal_eval L s = None →
  s ≠ "---" →
  parse_list_column L (PStr s) = Ok (if decide (strip s = "") then [] else [SStr s]).
Proof.
  intros Hlit Hs. rewrite parse_list_column_scalar, Hlit.
  case_decide as H; [|done].
  destruct H as [-> | ->]; [done|]. by destruct Hs.
Qed.

Lemma parse_list_column_fallback_witness :
  parse_list_column example_lib (PStr " a b ") = Ok [SStr " a b "].
Proof.
  apply (parse_list_column_fallback example_lib " a b ").
  - reflexivity.
  - discriminate.
Defined.

(** ** The list merger *)

Lemma add_item_ok (L : pylib) (st : merge_state scalar) (item : scalar) :
  str_raises L item = false →
  add_item L st item = Ok (add_by item_str keep_item st item).
Proof. intros Hitem. unfold add_item, str_item. by rewrite Hitem. Qed.

Lemma add_item_raises (L : pylib) (st : merge_state scalar) (item : scalar) :
  str_raises L item = true → add_item L st item = Raise ValueError.
Proof. intros Hitem. unfold add_item, str_item. by rewrite Hitem. Qed.

(** The inner loop returns exactly when [str] returns on every item, and
    then it is the fold of the pure step. *)
Lemma add_items_ok (L : pylib) (st : merge_state scalar) (items : list scalar) :
  Forall (λ x, str_raises L x = false) items →
  add_items L st items = Ok (foldl (add_by item_str keep_item) st items).
Proof.
  intros Hitems. revert st. induction Hitems as [|x items Hx _ IH]; intros st; [done|].
  cbn [add_items foldl]. rewrite add_item_ok by done. cbn [mbind result_bind]. apply IH.
Qed.

Lemma add_items_inv (L : pylib) (st st' : merge_state scalar) (items : list scalar) :
  add_items L st items = Ok st' →
  Forall (λ x, str_raises L x = false) items
  ∧ st' = foldl (add_by item_str keep_item) st items.
Proof.
  revert st. induction items as [|x items IH]; intros st.
  - intros [= <-]. by split.
  - cbn [add_items foldl]. destruct (str_raises L x) eqn:Hx.
    + by rewrite add_item_raises.
    + rewrite add_item_ok by done. cbn [mbind result_bind].
      intros [Hitems ->]%IH. split; [by constructor|done].
Qed.

Lemma add_items_app (L : pylib) (st : merge_state scalar) (l1 l2 : list scalar) :
  add_items L st (l1 ++ l2) = st' ← add_items L st l1; add_items L st' l2.
Proof.
  revert st. induction l1 as [|x l1 IH]; intros st; [done|].
  cbn [app add_items]. destruct (add_item L st x); [|done].
  cbn [mbind result_bind]. apply IH.
Qed.

Lemma merge_others_ok (L : pylib) (other_vals : list pyval) (ls : list (list scalar))
  (st : merge_state scalar) :
  Forall2 (λ val items, parse_list_column L val = Ok items) other_vals ls →
  Forall (λ x, str_raises L x = false) (concat ls) →
  merge_others L other_vals st
  = Ok (foldl (add_by item_str keep_item) st (concat ls)).
Proof.
  intros Hall. revert st.
  induction Hall as [|val items rest ls Hval _ IH]; intros st; [done|].
  cbn [merge_others concat]. intros [Hitems Hrest]%Forall_app.
  rewrite Hval. cbn [mbind result_bind]. rewrite add_items_ok by done.
  cbn [mbind result_bind]. by rewrite IH, foldl_app.
Qed.

Lemma merge_others_inv (L : pylib) (other_vals : list pyval) (st st' : merge_state scalar) :
  merge_others L other_vals st = Ok st' →
  ∃ ls, Forall2 (λ val items, parse_list_column L val = Ok items) other_vals ls
        ∧ Forall (λ x, str_raises L x = false) (concat ls).
Proof.
  revert st. induction other_vals as [|val rest IH]; intros st.
  - exists []. split; constructor.
  - cbn [merge_others]. destruct (parse_list_column L val) as [items|e] eqn:Hval; [|done].
    cbn [mbind result_bind].
    destruct (add_items L st items) as [st1|e] eqn:Hitems; [|done].
    cbn [mbind result_bind]. intros (ls & Hls & Hstr)%IH.
    apply add_items_inv in Hitems as [Hitems _].
    exists (items :: ls). split; [by constructor|].
    cbn [concat]. by apply Forall_app.
Qed.

(** When it returns, the list merger computes the first items, by
    identity, of the normalised inputs put end to end, without those of
    empty identity. *)
Lemma merge_list_columns_ok (L : pylib) (main_val : pyval) (other_vals : list pyval)
  (items : list scalar) (ls : list (list scalar)) :
  parse_list_column L main_val = Ok items →
  Forall2 (λ val items, parse_list_column L val = Ok items) other_vals ls →
  Forall (λ x, str_raises L x = false) (items ++ concat ls) →
  merge_list_columns L main_val other_vals
  = Ok (first_by_key item_str (filter (λ y, keep_item y = true) (items ++ concat ls))).
Proof.
  intros Hmain Hothers [Hitems Hrest]%Forall_app. unfold merge_list_columns.
  rewrite Hmain. cbn [mbind result_bind]. rewrite add_items_ok by done.
  cbn [mbind result_bind]. rewrite (merge_others_ok _ _ _ _ Hothers Hrest).
  cbn [mbind result_bind]. rewrite <-foldl_app.
  by rewrite (foldl_add_by_empty item_str keep_item).
Qed.

Lemma merge_list_columns_inv (L : pylib) (main_val : pyval) (other_vals : list pyval)
  (out : list scalar) :
  merge_list_columns L main_val other_vals = Ok out →
  ∃ items ls,
    parse_list_column L main_val = Ok items
    ∧ Forall2 (λ val items, parse_list_column L val = Ok items) other_vals ls
    ∧ Forall (λ x, str_raises L x = false) (items ++ concat ls).
Proof.
  unfold merge_list_columns.
  destruct (parse_list_column L main_val) as [items|e]; [|done].
  cbn [mbind result_bind].
  destruct (add_items L _ items) as [st0|e] eqn:Hitems; [|done].
  cbn [mbind result_bind].
  destruct (merge_others L other_vals st0) as [st|e] eqn:Hst; [|done].
  intros _. apply merge_others_inv in Hst as (ls & Hls & Hstr).
  apply add_items_inv in Hitems as [Hitems _].
  exists items, ls. split; [done|]. split; [done|]. by apply Forall_app.
Qed.

Lemma keep_item_true (x : scalar) : keep_item x = true ↔ item_str x ≠ "".
Proof. unfold keep_item. by rewrite bool_decide_eq_true. Qed.




(** C5.  When the normalised items of the primary and of the secondary
    input have trimmed identities ([str] returns on each of them) that are
    pairwise distinct and non-empty, [merge_list_columns(primary,
    secondary)] is the normalised primary items followed by the normalised
    secondary items. *)
Theorem merge_list_columns_distinct (L : pylib) (primary secondary : pyval)
  (l1 l2 : list scalar) :
  parse_list_column L primary = Ok l1 →
  parse_list_column L secondary = Ok l2 →
  Forall (λ x, str_raises L x = false) (l1 ++ l2) →
  NoDup (item_str <$> l1 ++ l2) →
  Forall (λ x, item_str x ≠ "") (l1 ++ l2) →
  merge_list_columns L primary [secondary] = Ok (l1 ++ l2).
Proof.
  intros H1 H2 Hstr Hdup Hne.
  rewrite (merge_list_columns_ok L primary [secondary] l1 [l2]);
    [|done|by repeat constructor|by cbn [concat]; rewrite app_nil_r].
  cbn [concat]. rewrite app_nil_r. f_equal.
  rewrite filter_all.
  - by apply first_by_key_id.
  - eapply Forall_impl; [exact Hne|]. intros x. by rewrite keep_item_true.
Qed.

Lemma merge_list_columns_distinct_witness :
  merge_list_columns example_lib (PStr "['a', 'b']") [PStr "12"]
  = Ok ([SStr "a"; SStr "b"] ++ [SInt 12]).
Proof.
  apply (merge_list_columns_distinct example_lib).
  - reflexivity.
  - reflexivity.
  - apply (bool_decide_unpack _). vm_compute. exact I.
  - apply (bool_decide_unpack _). vm_compute. exact I.
  - apply (bool_decide_unpack _). vm_compute. exact I.
Defined.

(** C8.  With a missing value ([None] or NaN), the empty string or the
    placeholder ["---"] as primary and no secondary input,
    [merge_list_columns] returns the empty sequence and raises nothing. *)
Theorem merge_list_columns_empty (L : pylib) (main_val : pyval) :
  main_val ∈ [PNone; PNaN; PStr ""; PStr "---"] →
  merge_list_columns L main_val [] = Ok [].
Proof.
  intros Hin. repeat (apply elem_of_cons in Hin as [->|Hin]); [done..|].
  by apply elem_of_nil in Hin.
Qed.

Lemma merge_list_columns_empty_witness :
  merge_list_columns example_lib (PStr "---") [] = Ok [].
Proof.
  apply (merge_list_columns_empty example_lib).
  apply (bool_decide_unpack _). vm_compute. exact I.
Defined.

(** ** The sentiment merger *)

Lemma add_sentiments_add_by (st : merge_state string) (items : list string) :
  add_sentiments st items = foldl (add_by id keep_sentiment) st items.
Proof. reflexivity. Qed.

Lemma keep_sentiment_true (p : string) :
  keep_sentiment p = true ↔ p ≠ "" ∧ p ≠ "neutral".
Proof.
  unfold keep_sentiment. by rewrite andb_true_iff, !bool_decide_eq_true.
Qed.

Lemma py_eq_str_scalar (x : scalar) (s : string) :
  py_eq_str (PScalar x) s = bool_decide (x = SStr s).
Proof.
  destruct x; try done. cbn [py_eq_str].
  apply bool_decide_ext. split; [by intros ->|by intros [= ->]].
Qed.


Lemma raw_pieces_clean (L : pylib) (val : pyval) : Forall clean_piece (raw_pieces L val).
Proof.
  unfold raw_pieces. apply Forall_fmap, Forall_forall. intros q Hq. split.
  - apply strip_idemp.
  - apply has_char_strip. by eapply split_pieces_clean.
Qed.



(** Whatever the values, when the loop returns it has fed a list of clean
    pieces to the inner loop. *)
Lemma merge_sentiment_loop_inv (L : pylib) (vals : list pyval) (st st' : merge_state string) :
  merge_sentiment_loop L vals st = Ok st' →
  ∃ items, Forall clean_piece items ∧ st' = add_sentiments st items.
Proof.
  revert st. induction vals as [|val rest IH]; intros st.
  - intros [= <-]. by exists [].
  - cbn [merge_sentiment_loop].
    destruct (truth L (pd_isna val)) as [na|e]; [|done].
    cbn [mbind result_bind].
    destruct (na || py_eq_str val "" || py_eq_str val "neutral").
    + apply IH.
    + intros (items & Hitems & ->)%IH.
      exists (raw_pieces L val ++ items). split.
      * apply Forall_app. split; [apply raw_pieces_clean|done].
      * unfold add_sentiments. by rewrite foldl_app.
Qed.

Lemma join_cons_nonempty (sep p : string) (ps : list string) :
  p ≠ "" → join sep (p :: ps) ≠ "".
Proof. destruct p; [done|]. by destruct ps. Qed.

Lemma join_not_neutral (p : string) (ps : list string) :
  p ≠ "neutral" → join ", " (p :: ps) ≠ "neutral".
Proof.
  intros Hp. destruct ps as [|q qs]; [done|].
  change (join ", " (p :: q :: qs)) with (p +:+ ", " +:+ join ", " (q :: qs)).
  intros Heq. apply (f_equal (has_char ",")) in Heq.
  rewrite !has_char_app in Heq. cbn in Heq.
  by rewrite orb_true_r in Heq.
Qed.

Lemma strip_split_join (p : string) (ps : list string) :
  Forall clean_piece (p :: ps) →
  strip <$> split "," (join ", " (p :: ps)) = p :: ps.
Proof.
  intros Hall. rewrite split_join.
  - rewrite fmap_cons, <-list_fmap_compose.
    inversion Hall as [|? ? [Hp _] Hps]; subst. rewrite Hp. f_equal.
    rewrite <-(list_fmap_id ps) at 2. apply Forall_fmap_ext_1.
    eapply Forall_impl; [exact Hps|]. intros q [Hq _].
    unfold compose. by rewrite strip_space_cons.
  - eapply Forall_impl; [exact Hall|]. by intros q [_ ?].
Qed.

(** C10.  [merge_sentiment_columns] applied to a string it has produced
    gives that string back. *)
Theorem merge_sentiment_columns_idempotent (L : pylib) (main_val : pyval)
  (other_vals : list pyval) (out : string) :
  merge_sentiment_columns L main_val other_vals = Ok out →
  merge_sentiment_columns L (PStr out) [] = Ok out.
Proof.
  unfold merge_sentiment_columns at 1.
  destruct (merge_sentiment_loop L _ _) as [st|e] eqn:Hloop; [|done].
  cbn [mbind result_bind]. intros [= <-].
  apply merge_sentiment_loop_inv in Hloop as (items & Hclean & ->).
  rewrite add_sentiments_add_by, foldl_add_by_empty.
  set (ps := first_by_key id _).
  assert (Hps : Forall (λ p, clean_piece p ∧ keep_sentiment p = true) ps).
  { apply Forall_forall. intros p Hp.
    apply elem_of_sublist with (l2 := filter (λ y, keep_sentiment y = true) items) in Hp;
      [|apply first_by_key_sublist].
    apply list_elem_of_filter in Hp as [Hkeep Hin]. split; [|done].
    by eapply Forall_forall in Hclean. }
  assert (Hdup : NoDup ps).
  { rewrite <-(list_fmap_id ps). apply (first_by_key_NoDup id). }
  clearbody ps. destruct ps as [|p qs]; [done|].
  assert (Hp : p ≠ "" ∧ p ≠ "neutral").
  { apply keep_sentiment_true. by inversion Hps as [|? ? [_ ?] _]. }
  destruct Hp as [Hp1 Hp2].
  unfold merge_sentiment_columns.
  cbn [merge_sentiment_loop pd_isna truth is_null mbind result_bind orb py_eq_str].
  rewrite !bool_decide_eq_false_2
    by auto using join_cons_nonempty, join_not_neutral.
  cbn [orb py_str_val py_str mbind result_bind]. do 2 f_equal.
  rewrite strip_split_join by (eapply Forall_impl; [exact Hps|]; by intros q [? _]).
  rewrite add_sentiments_add_by, foldl_add_by_empty.
  rewrite filter_all by (eapply Forall_impl; [exact Hps|]; by intros q [_ ?]).
  apply first_by_key_id. by rewrite list_fmap_id.
Qed.

Lemma merge_sentiment_columns_idempotent_witness :
  merge_sentiment_columns example_lib (PStr "happy, sad, joy") [] = Ok "happy, sad, joy".
Proof.
  apply (merge_sentiment_columns_idempotent example_lib
           (PStr "happy , sad") [PNaN; PStr "neutral, sad,joy,"]).
  vm_compute. reflexivity.
Defined.

(** ** The row loop *)

Lemma at_get_insert (df : list (gmap string pyval)) (idx : nat) (r : gmap string pyval)
  (col : string) :
  idx < length df → at_get (<[idx := r]> df) idx col = cell r col.
Proof. intros Hlt. unfold at_get. by rewrite list_lookup_insert_eq. Qed.

Lemma at_set_insert (df : list (gmap string pyval)) (idx : nat) (r : gmap string pyval)
  (col : string) (v : pyval) :
  at_set (<[idx := r]> df) idx col v = <[idx := <[col := v]> r]> df.
Proof.
  unfold at_set. apply list_eq. intros i.
  destruct (decide (i = idx)) as [->|Hne].
  - rewrite list_lookup_alter_eq.
    destruct (decide (idx < length df)) as [Hlt|Hge].
    + by rewrite !list_lookup_insert_eq.
    + by rewrite !list_insert_ge, lookup_ge_None_2 by lia.
  - rewrite list_lookup_alter_ne by done.
    by rewrite !list_lookup_insert_ne.
Qed.

(** The loop body reads and writes one row only. *)
Lemma merge_row_cells_eq (L : pylib) (sheet1_df sheet2_df df : list (gmap string pyval))
  (idx : nat) :
  merge_row L sheet1_df sheet2_df df idx
  = match df !! idx with
    | Some r =>
        r' ← merge_row_cells L (sheet1_df !! idx) (sheet2_df !! idx) r;
        Ok (<[idx := r']> df)
    | None => Raise KeyError
    end.
Proof.
  destruct (df !! idx) as [r|] eqn:Hr.
  - assert (Hlt : idx < length df) by by eapply lookup_lt_Some.
    rewrite <-(list_insert_id df idx r Hr) at 1.
    unfold merge_row, merge_row_cells.
    rewrite at_get_insert by done.
    destruct (cell r "people") as [v1|]; [|done]. cbn [mbind result_bind].
    destruct (merge_list_columns L v1 _) as [people|]; [|done]. cbn [mbind result_bind].
    rewrite at_set_insert, at_get_insert by done.
    destruct (cell _ "places") as [v2|]; [|done]. cbn [mbind result_bind].
    destruct (merge_list_columns L v2 _) as [places|]; [|done]. cbn [mbind result_bind].
    rewrite at_set_insert, at_get_insert by done.
    destruct (cell _ "sentiments") as [v3|]; [|done]. cbn [mbind result_bind].
    destruct (merge_sentiment_columns L v3 _) as [sentiments|]; [|done].
    cbn [mbind result_bind].
    rewrite at_set_insert, at_get_insert by done.
    destruct (cell _ "objects") as [v4|]; [|done]. cbn [mbind result_bind].
    destruct (merge_list_columns L v4 _) as [objects|]; [|done]. cbn [mbind result_bind].
    by rewrite at_set_insert.
  - unfold merge_row, at_get. by rewrite Hr.
Qed.

Lemma cell_Ok (r : gmap string pyval) (col : string) (v : pyval) :
  cell r col = Ok v ↔ r !! col = Some v.
Proof. unfold cell. destruct (r !! col); naive_solver. Qed.

Lemma merge_row_cells_merged (L : pylib) (sheet1_row sheet2_row : option (gmap string pyval))
  (r r' : gmap string pyval) :
  merge_row_cells L sheet1_row sheet2_row r = Ok r' →
  row_merged L sheet1_row sheet2_row r r'.
Proof.
  unfold merge_row_cells.
  destruct (cell r "people") as [v1|] eqn:H1; [|done]. cbn [mbind result_bind].
  destruct (merge_list_columns L v1 _) as [people|] eqn:M1; [|done].
  cbn [mbind result_bind].
  destruct (cell _ "places") as [v2|] eqn:H2; [|done]. cbn [mbind result_bind].
  destruct (merge_list_columns L v2 _) as [places|] eqn:M2; [|done].
  cbn [mbind result_bind].
  destruct (cell _ "sentiments") as [v3|] eqn:H3; [|done]. cbn [mbind result_bind].
  destruct (merge_sentiment_columns L v3 _) as [sentiments|] eqn:M3; [|done].
  cbn [mbind result_bind].
  destruct (cell _ "objects") as [v4|] eqn:H4; [|done]. cbn [mbind result_bind].
  destruct (merge_list_columns L v4 _) as [objects|] eqn:M4; [|done].
  cbn [mbind result_bind]. intros [= <-].
  apply cell_Ok in H1, H2, H3, H4. rename H1 into Hc1, H2 into Hc2, H3 into Hc3, H4 into Hc4.
  rewrite !lookup_insert_ne in Hc2 by done.
  rewrite !lookup_insert_ne in Hc3 by done.
  rewrite !lookup_insert_ne in Hc4 by done.
  split; [|split; [|split; [|split; [|split]]]].
  - rewrite !dom_insert_lookup_L; [done|..];
      rewrite ?lookup_insert_ne by done; eauto.
  - intros col Hcol. unfold merged_fields in Hcol.
    rewrite !not_elem_of_cons in Hcol. destruct Hcol as (? & ? & ? & ? & _).
    by rewrite !lookup_insert_ne by congruence.
  - exists v1, people. split; [done|]. split; [done|].
    rewrite !lookup_insert_ne by done. apply lookup_insert_eq.
  - exists v2, places. split; [done|]. split; [done|].
    rewrite !lookup_insert_ne by done. apply lookup_insert_eq.
  - exists v3, sentiments. split; [done|]. split; [done|].
    rewrite !lookup_insert_ne by done. apply lookup_insert_eq.
  - exists v4, objects. split; [done|]. split; [done|]. apply lookup_insert_eq.
Qed.

Lemma merge_rows_inv (L : pylib) (sheet1_df sheet2_df : list (gmap string pyval))
  (idxs : list nat) (df out : list (gmap string pyval)) :
  NoDup idxs →
  merge_rows L sheet1_df sheet2_df idxs df = Ok out →
  length out = length df
  ∧ (∀ i, i ∉ idxs → out !! i = df !! i)
  ∧ (∀ i, i ∈ idxs →
       ∃ r r', df !! i = Some r
               ∧ merge_row_cells L (sheet1_df !! i) (sheet2_df !! i) r = Ok r'
               ∧ out !! i = Some r').
Proof.
  intros Hdup. revert df. induction Hdup as [|idx rest Hidx Hdup IH]; intros df.
  - intros [= <-]. split; [done|]. split; [done|]. by intros i ?%elem_of_nil.
  - cbn [merge_rows]. rewrite merge_row_cells_eq.
    destruct (df !! idx) as [r|] eqn:Hr; [|done].
    destruct (merge_row_cells L _ _ r) as [r'|] eqn:Hr'; [|done].
    cbn [mbind result_bind]. intros (Hlen & Hout & Hin)%IH.
    assert (Hlt : idx < length df) by by eapply lookup_lt_Some.
    rewrite length_insert in Hlen. split; [done|]. split.
    + intros i [Hne Hi]%not_elem_of_cons.
      by rewrite Hout, list_lookup_insert_ne.
    + intros i [->|Hi]%elem_of_cons.
      * exists r, r'. split; [done|]. split; [done|].
        by rewrite Hout, list_lookup_insert_eq.
      * destruct (Hin i Hi) as (ri & ri' & Hri & ? & ?).
        assert (idx ≠ i) by by intros ->.
        rewrite list_lookup_insert_ne in Hri by done. eauto.
Qed.

(** * Further properties of the mergers and of the row loop *)

(** ** The two accumulators *)

Section accumulators.
Context {A : Type} (key : A → string) (keep : A → bool).

Lemma merge_state_eta (st : merge_state A) :
  st = MergeState (st_result st) (st_seen st).
Proof. by destruct st. Qed.

(** [seen] grows by the keys of the kept items. *)
Lemma foldl_add_by_seen (l : list A) (st : merge_state A) :
  st_seen (foldl (add_by key keep) st l)
  = st_seen st ∪ list_to_set (key <$> filter (λ y, keep y = true) l).
Proof.
  revert st. induction l as [|x l IH]; intros st.
  - cbn [foldl]. rewrite filter_nil, fmap_nil, list_to_set_nil.
    by rewrite (right_id_L ∅ (∪)).
  - cbn [foldl]. rewrite IH. unfold add_by.
    destruct (keep x) eqn:Hx; cbn [andb].
    + rewrite (filter_cons_True (λ y, keep y = true)) by done.
      rewrite fmap_cons, list_to_set_cons.
      case_bool_decide as Hseen; cbn [st_seen].
      * by rewrite (comm_L (∪) {[key x]}), <-(assoc_L (∪)).
      * rewrite (assoc_L (∪)). f_equal.
        apply set_eq. intros k. rewrite elem_of_union, elem_of_singleton.
        split; [by left|]. by intros [?| ->].
    + by rewrite (filter_cons_False (λ y, keep y = true)) by (by rewrite Hx).
Qed.

(** Items whose key is already seen, or that are not kept, leave the
    accumulators as they are. *)
Lemma foldl_add_by_unchanged (l : list A) (st : merge_state A) :
  (∀ x, x ∈ l → keep x = true → key x ∈ st_seen st) →
  foldl (add_by key keep) st l = st.
Proof.
  induction l as [|x l IH]; intros Hl; [done|].
  cbn [foldl]. assert (add_by key keep st x = st) as ->.
  { unfold add_by. destruct (keep x) eqn:Hx; [|done]. cbn [andb].
    rewrite bool_decide_eq_false_2; [done|].
    intros Hnot. apply Hnot, Hl; [by left|done]. }
  apply IH. intros y Hy. apply Hl. by right.
Qed.

Lemma foldl_add_by_prefix (l : list A) (st : merge_state A) :
  st_result st `prefix_of` st_result (foldl (add_by key keep) st l).
Proof. rewrite foldl_add_by. by eexists. Qed.

End accumulators.

(** ** More on the list merger *)

Lemma add_items_prefix (L : pylib) (st st' : merge_state scalar) (items : list scalar) :
  add_items L st items = Ok st' → st_result st `prefix_of` st_result st'.
Proof.
  intros [_ ->]%add_items_inv. apply (foldl_add_by_prefix item_str keep_item).
Qed.

Lemma merge_others_app (L : pylib) (o1 o2 : list pyval) (st : merge_state scalar) :
  merge_others L (o1 ++ o2) st
  = st' ← merge_others L o1 st; merge_others L o2 st'.
Proof.
  revert st. induction o1 as [|val o1 IH]; intros st; [done|].
  cbn [app merge_others].
  destruct (parse_list_column L val) as [items|e]; [|done].
  cbn [mbind result_bind].
  destruct (add_items L st items) as [st1|e]; [|done].
  cbn [mbind result_bind]. apply IH.
Qed.

Lemma merge_others_prefix (L : pylib) (other_vals : list pyval) (st st' : merge_state scalar) :
  merge_others L other_vals st = Ok st' → st_result st `prefix_of` st_result st'.
Proof.
  revert st. induction other_vals as [|val rest IH]; intros st.
  - by intros [= <-].
  - cbn [merge_others]. destruct (parse_list_column L val) as [items|e]; [|done].
    cbn [mbind result_bind].
    destruct (add_items L st items) as [st1|e] eqn:Hitems; [|done].
    cbn [mbind result_bind]. intros Hrest%IH.
    etrans; [by eapply add_items_prefix|exact Hrest].
Qed.

Lemma merge_others_drop (L : pylib) (o1 o2 : list pyval) (val : pyval)
  (st : merge_state scalar) :
  parse_list_column L val = Ok [] →
  merge_others L (o1 ++ val :: o2) st = merge_others L (o1 ++ o2) st.
Proof.
  intros Hval. rewrite !merge_others_app.
  destruct (merge_others L o1 st) as [st'|e]; [|done].
  cbn [mbind result_bind merge_others]. by rewrite Hval.
Qed.

Lemma accepted_items_of (L : pylib) (val : pyval) :
  accepted L val →
  parse_list_column L val = Ok (items_of L val)
  ∧ Forall (λ x, str_raises L x = false) (items_of L val).
Proof. intros (items & Hval & Hstr). unfold items_of. by rewrite Hval. Qed.

Lemma accepted_Forall2 (L : pylib) (vals : list pyval) :
  Forall (accepted L) vals →
  Forall2 (λ val items, parse_list_column L val = Ok items) vals (items_of L <$> vals)
  ∧ Forall (λ x, str_raises L x = false) (all_items L vals).
Proof.
  unfold all_items.
  induction 1 as [|val vals [Hval Hstr]%accepted_items_of _ [IH1 IH2]].
  - split; constructor.
  - rewrite fmap_cons. cbn [concat]. split; [by constructor|by apply Forall_app].
Qed.

Lemma Forall2_accepted (L : pylib) (vals : list pyval) (ls : list (list scalar)) :
  Forall2 (λ val items, parse_list_column L val = Ok items) vals ls →
  Forall (λ x, str_raises L x = false) (concat ls) →
  Forall (accepted L) vals.
Proof.
  induction 1 as [|val items vals ls Hval _ IH]; [constructor|].
  cbn [concat]. intros [Hitems Hrest]%Forall_app.
  constructor; [by exists items|auto].
Qed.

(** When every input is accepted the merge is a function of the items the
    inputs contribute. *)
Lemma merge_list_columns_all_items (L : pylib) (main_val : pyval) (other_vals : list pyval) :
  Forall (accepted L) (main_val :: other_vals) →
  merge_list_columns L main_val other_vals
  = Ok (first_by_key item_str
          (filter (λ y, keep_item y = true) (all_items L (main_val :: other_vals)))).
Proof.
  intros Hall. pose proof (accepted_Forall2 _ _ Hall) as [Hparse Hstr].
  apply Forall_cons in Hall as [[Hmain _]%accepted_items_of Hothers].
  apply accepted_Forall2 in Hothers as [Hothers _].
  by rewrite (merge_list_columns_ok _ _ _ _ _ Hmain Hothers Hstr).
Qed.

Lemma merge_list_columns_returns (L : pylib) (main_val : pyval) (other_vals : list pyval)
  (out : list scalar) :
  merge_list_columns L main_val other_vals = Ok out →
  Forall (accepted L) (main_val :: other_vals).
Proof.
  intros (items & ls & Hmain & Hothers & [Hitems Hrest]%Forall_app)%merge_list_columns_inv.
  constructor; [by exists items|]. by eapply Forall2_accepted.
Qed.

Lemma elem_of_all_items (L : pylib) (vals : list pyval) (x : scalar) :
  x ∈ all_items L vals ↔ ∃ val, val ∈ vals ∧ x ∈ items_of L val.
Proof.
  unfold all_items. induction vals as [|v vals IH].
  - split; [by intros ?%elem_of_nil|]. by intros (? & ?%elem_of_nil & _).
  - rewrite fmap_cons. cbn [concat]. rewrite elem_of_app, IH. split.
    + intros [?|(val & ? & ?)]; [exists v|exists val]; split; try done;
        [by left|by right].
    + intros (val & [->|?]%elem_of_cons & ?); [by left|right; eauto].
Qed.

(** X1.  [merge_list_columns] returns a list exactly when, for each of its
    inputs, the normaliser returns and [str] returns on every item; one
    native list of two or more items, in any position, makes the whole
    merge raise. *)
Theorem merge_list_columns_returns_iff (L : pylib) (main_val : pyval)
  (other_vals : list pyval) :
  ((∃ out, merge_list_columns L main_val other_vals = Ok out)
   ↔ Forall (accepted L) (main_val :: other_vals))
  ∧ (∀ x y items,
       PList (x :: y :: items) ∈ main_val :: other_vals →
       ∃ e, merge_list_columns L main_val other_vals = Raise e).
Proof.
  split; [split|].
  - intros [out Hout]. by eapply merge_list_columns_returns.
  - intros Hall. rewrite merge_list_columns_all_items by done. eauto.
  - intros x y items Hin.
    destruct (merge_list_columns L main_val other_vals) as [out|e] eqn:Hout; [|eauto].
    apply merge_list_columns_returns in Hout.
    eapply Forall_forall in Hout as (l & Hl & _); [|exact Hin].
    by rewrite parse_list_column_long_list in Hl.
Qed.

Lemma merge_list_columns_returns_iff_witness :
  ∃ e, merge_list_columns example_lib (PStr "Bob") [PNaN; PList [SStr "a"; SStr "b"]]
       = Raise e.
Proof.
  apply (merge_list_columns_returns_iff example_lib (PStr "Bob")
           [PNaN; PList [SStr "a"; SStr "b"]]) with (SStr "a") (SStr "b") [].
  apply (bool_decide_unpack _). vm_compute. exact I.
Defined.

(** X2.  Further secondary inputs only append: the merge of the primary
    value with the first secondary values is a prefix of the merge with
    more of them; in particular the deduplicated primary items come first. *)
Theorem merge_list_columns_prefix (L : pylib) (main_val : pyval) (o1 o2 : list pyval)
  (out : list scalar) :
  merge_list_columns L main_val (o1 ++ o2) = Ok out →
  ∃ out1, merge_list_columns L main_val o1 = Ok out1 ∧ out1 `prefix_of` out.
Proof.
  unfold merge_list_columns.
  destruct (parse_list_column L main_val) as [items|e]; [|done].
  cbn [mbind result_bind].
  destruct (add_items L _ items) as [st0|e]; [|done].
  cbn [mbind result_bind]. rewrite merge_others_app.
  destruct (merge_others L o1 st0) as [st1|e]; [|done]. cbn [mbind result_bind].
  destruct (merge_others L o2 st1) as [st2|e] eqn:H2; [|done].
  cbn [mbind result_bind]. intros [= <-].
  exists (st_result st1). split; [done|]. by eapply merge_others_prefix.
Qed.

Lemma merge_list_columns_prefix_witness :
  ∃ out1, merge_list_columns example_lib (PStr "['a', 'b']") [PStr "Bob"] = Ok out1
          ∧ out1 `prefix_of` [SStr "a"; SStr "b"; SStr "Bob"; SStr "Rome"].
Proof.
  apply (merge_list_columns_prefix example_lib (PStr "['a', 'b']")
           [PStr "Bob"] [PStr "a"; PStr "Rome"]).
  vm_compute. reflexivity.
Defined.

(** X3.  A value the normaliser maps to the empty list adds nothing to a
    merge, as primary or as secondary input in any position; such are the
    missing markers, the empty string, the placeholder and every scalar
    that is not a string (a number, a boolean, any other object). *)
Theorem merge_list_columns_drop_empty (L : pylib) :
  (∀ x, (∀ s, x = SStr s → s = "" ∨ s = "---") → parse_list_column L (PScalar x) = Ok [])
  ∧ (∀ val main_val o1 o2,
       parse_list_column L val = Ok [] →
       merge_list_columns L main_val (o1 ++ val :: o2)
       = merge_list_columns L main_val (o1 ++ o2))
  ∧ (∀ val next rest,
       parse_list_column L val = Ok [] →
       merge_list_columns L val (next :: rest) = merge_list_columns L next rest).
Proof.
  split; [|split].
  - intros x Hx. rewrite parse_list_column_scalar.
    destruct x as [| | | |s|]; try done.
    by rewrite decide_True by eauto.
  - intros val main_val o1 o2 Hval. unfold merge_list_columns.
    destruct (parse_list_column L main_val) as [items|e]; [|done].
    cbn [mbind result_bind].
    destruct (add_items L _ items) as [st0|e]; [|done].
    cbn [mbind result_bind]. by rewrite merge_others_drop.
  - intros val next rest Hval. unfold merge_list_columns.
    rewrite Hval. cbn [mbind result_bind add_items merge_others].
    destruct (parse_list_column L next) as [items|e]; [|done].
    cbn [mbind result_bind]. by destruct (add_items L _ items).
Qed.

Lemma merge_list_columns_drop_empty_witness :
  merge_list_columns example_lib (PStr "Bob") ([PStr "Rome"] ++ PScalar (SInt 5) :: [PNaN])
  = merge_list_columns example_lib (PStr "Bob") ([PStr "Rome"] ++ [PNaN]).
Proof.
  apply (merge_list_columns_drop_empty example_lib). reflexivity.
Defined.

(** X4.  Giving an input a second time, at the end, changes nothing: every
    item it contributes has an identity that is already seen. *)
Theorem merge_list_columns_repeat (L : pylib) (main_val : pyval) (other_vals : list pyval)
  (val : pyval) :
  val ∈ main_val :: other_vals →
  merge_list_columns L main_val (other_vals ++ [val])
  = merge_list_columns L main_val other_vals.
Proof.
  intros Hin.
  destruct (merge_list_columns L main_val other_vals) as [out|e] eqn:Hout.
  - pose proof (merge_list_columns_returns _ _ _ _ Hout) as Hall.
    assert (Hval : accepted L val) by by eapply Forall_forall in Hall.
    apply accepted_items_of in Hval as [Hval Hstr].
    pose proof (accepted_Forall2 _ _ Hall) as [_ Hstrs].
    apply Forall_cons in Hall as [[Hmain Hmstr]%accepted_items_of Hothers].
    apply accepted_Forall2 in Hothers as [Hothers Hostr].
    revert Hout. unfold merge_list_columns. rewrite Hmain. cbn [mbind result_bind].
    rewrite add_items_ok by done. cbn [mbind result_bind].
    rewrite merge_others_app.
    rewrite (merge_others_ok _ _ _ _ Hothers Hostr).
    cbn [mbind result_bind merge_others]. rewrite Hval. cbn [mbind result_bind].
    rewrite add_items_ok by done. cbn [mbind result_bind].
    intros [= <-]. do 2 f_equal.
    rewrite <-(foldl_app _ (items_of L main_val) (concat (items_of L <$> other_vals))
                 (MergeState [] ∅)).
    apply (foldl_add_by_unchanged item_str keep_item).
    intros x Hx Hkeep. rewrite (foldl_add_by_seen item_str keep_item). cbn [st_seen].
    apply elem_of_union_r, elem_of_list_to_set, list_elem_of_fmap_2.
    apply list_elem_of_filter. split; [done|].
    change (x ∈ all_items L (main_val :: other_vals)).
    apply elem_of_all_items. eauto.
  - revert Hout. unfold merge_list_columns.
    destruct (parse_list_column L main_val) as [items|e']; [|done].
    cbn [mbind result_bind].
    destruct (add_items L _ items) as [st0|e0]; [|done].
    cbn [mbind result_bind]. rewrite merge_others_app.
    destruct (merge_others L other_vals st0) as [st|e'']; [done|].
    cbn [mbind result_bind]. by intros [= <-].
Qed.

Lemma merge_list_columns_repeat_witness :
  merge_list_columns example_lib (PStr "['a', 'b']") ([PStr "Bob"] ++ [PStr "['a', 'b']"])
  = merge_list_columns example_lib (PStr "['a', 'b']") [PStr "Bob"].
Proof.
  apply (merge_list_columns_repeat example_lib).
  apply (bool_decide_unpack _). vm_compute. exact I.
Defined.

(** X5.  The identities of the output do not depend on the order of the
    inputs (nor on which of them is the primary one): merging a
    rearrangement of the same inputs returns as well, a list with the same
    identities; only their order and their representatives can differ. *)
Theorem merge_list_columns_permutation (L : pylib) (main_val main_val' : pyval)
  (other_vals other_vals' : list pyval) (out : list scalar) :
  main_val :: other_vals ≡ₚ main_val' :: other_vals' →
  merge_list_columns L main_val other_vals = Ok out →
  ∃ out', merge_list_columns L main_val' other_vals' = Ok out'
          ∧ item_str <$> out ≡ₚ item_str <$> out'.
Proof.
  intros Hperm Hout.
  pose proof (merge_list_columns_returns _ _ _ _ Hout) as Hall.
  assert (Hall' : Forall (accepted L) (main_val' :: other_vals')).
  { apply Forall_forall. intros val Hval. rewrite <-Hperm in Hval.
    by eapply Forall_forall in Hall. }
  rewrite merge_list_columns_all_items in Hout by done. injection Hout as <-.
  rewrite merge_list_columns_all_items by done. eexists. split; [done|].
  apply NoDup_Permutation; [apply first_by_key_NoDup..|].
  intros k. rewrite !first_by_key_keys, !list_elem_of_fmap.
  setoid_rewrite list_elem_of_filter. setoid_rewrite elem_of_all_items.
  by setoid_rewrite Hperm.
Qed.

Lemma merge_list_columns_permutation_witness :
  ∃ out', merge_list_columns example_lib (PStr " Alice") [PStr "['Alice']"; PStr "Bob"] = Ok out'
          ∧ item_str <$> [SStr "Alice"; SStr "Bob"] ≡ₚ item_str <$> out'.
Proof.
  apply (merge_list_columns_permutation example_lib (PStr "['Alice']") (PStr " Alice")
           [PStr "Bob"; PStr " Alice"] [PStr "['Alice']"; PStr "Bob"]).
  - apply (bool_decide_unpack _). vm_compute. exact I.
  - vm_compute. reflexivity.
Defined.

(** ** More on the sentiment merger *)

Section replay.
Context {A : Type} (key : A → string) (keep : A → bool).

(** Running the loop again on its own result rebuilds both accumulators. *)
Lemma foldl_add_by_replay (l : list A) :
  foldl (add_by key keep) (MergeState [] ∅)
    (st_result (foldl (add_by key keep) (MergeState [] ∅) l))
  = foldl (add_by key keep) (MergeState [] ∅) l.
Proof.
  rewrite foldl_add_by_empty.
  set (ps := first_by_key key (filter (λ y, keep y = true) l)).
  assert (Hkept : filter (λ y, keep y = true) ps = ps).
  { apply filter_all, Forall_forall. intros x Hx.
    apply elem_of_sublist with (l2 := filter (λ y, keep y = true) l) in Hx;
      [|apply first_by_key_sublist].
    by apply list_elem_of_filter in Hx as [? _]. }
  rewrite (merge_state_eta (foldl _ _ ps)), (merge_state_eta (foldl _ _ l)).
  rewrite !foldl_add_by_empty, !foldl_add_by_seen, Hkept. fold ps. f_equal.
  - apply first_by_key_id, first_by_key_NoDup.
  - f_equal. apply set_eq. intros k. rewrite !elem_of_list_to_set.
    apply first_by_key_keys.
Qed.

End replay.

Lemma merge_sentiment_loop_app (L : pylib) (v1 v2 : list pyval) (st : merge_state string) :
  merge_sentiment_loop L (v1 ++ v2) st
  = st' ← merge_sentiment_loop L v1 st; merge_sentiment_loop L v2 st'.
Proof.
  revert st. induction v1 as [|val v1 IH]; intros st; [done|].
  cbn [app merge_sentiment_loop].
  destruct (truth L (pd_isna val)) as [na|e]; [|done]. cbn [mbind result_bind].
  destruct (na || py_eq_str val "" || py_eq_str val "neutral"); apply IH.
Qed.

(** What the loop, started afresh, leaves in [result]: distinct pieces,
    trimmed, comma-free, not empty and not ["neutral"]; and the state is the
    one the inner loop rebuilds from them. *)
Lemma merge_sentiment_loop_result (L : pylib) (vals : list pyval) (st : merge_state string) :
  merge_sentiment_loop L vals (MergeState [] ∅) = Ok st →
  NoDup (st_result st)
  ∧ Forall (λ p, clean_piece p ∧ keep_sentiment p = true) (st_result st)
  ∧ add_sentiments (MergeState [] ∅) (st_result st) = st.
Proof.
  intros (items & Hclean & ->)%merge_sentiment_loop_inv.
  rewrite !add_sentiments_add_by. split; [|split].
  - rewrite foldl_add_by_empty, <-(list_fmap_id (first_by_key _ _)).
    apply (first_by_key_NoDup id).
  - rewrite foldl_add_by_empty. apply Forall_forall. intros p Hp.
    apply elem_of_sublist with (l2 := filter (λ y, keep_sentiment y = true) items) in Hp;
      [|apply first_by_key_sublist].
    apply list_elem_of_filter in Hp as [Hkeep Hin]. split; [|done].
    by eapply Forall_forall in Hclean.
  - apply foldl_add_by_replay.
Qed.

(** Reading back a string the merger has produced puts the loop in the
    state it was in when it produced it. *)
Lemma merge_sentiment_loop_reread (L : pylib) (vals more : list pyval) (st : merge_state string) :
  merge_sentiment_loop L vals (MergeState [] ∅) = Ok st →
  merge_sentiment_loop L (PStr (join ", " (st_result st)) :: more) (MergeState [] ∅)
  = merge_sentiment_loop L more st.
Proof.
  intros (Hdup & Hps & Hst)%merge_sentiment_loop_result.
  destruct (st_result st) as [|p qs] eqn:Hres.
  - cbn in Hst. by rewrite <-Hst.
  - assert (Hp : p ≠ "" ∧ p ≠ "neutral").
    { apply keep_sentiment_true. by inversion Hps as [|? ? [_ ?] _]. }
    destruct Hp as [Hp1 Hp2].
    cbn [merge_sentiment_loop pd_isna truth is_null mbind result_bind orb py_eq_str].
    rewrite !bool_decide_eq_false_2
      by auto using join_cons_nonempty, join_not_neutral.
    cbn [orb py_str_val py_str].
    rewrite strip_split_join by (eapply Forall_impl; [exact Hps|]; by intros q [? _]).
    by rewrite Hst.
Qed.

(** X6.  The string [merge_sentiment_columns] returns is never
    ["neutral"]; it is empty, or its comma-separated pieces, trimmed, are
    pairwise distinct, none empty and none ["neutral"], and joining them
    with [", "] gives the string back. *)
Theorem merge_sentiment_columns_output (L : pylib) (main_val : pyval)
  (other_vals : list pyval) (out : string) :
  merge_sentiment_columns L main_val other_vals = Ok out →
  out ≠ "neutral"
  ∧ (out = ""
     ∨ NoDup (strip <$> split "," out)
       ∧ Forall (λ p, p ≠ "" ∧ p ≠ "neutral") (strip <$> split "," out)
       ∧ join ", " (strip <$> split "," out) = out).
Proof.
  unfold merge_sentiment_columns.
  destruct (merge_sentiment_loop L _ _) as [st|e] eqn:Hloop; [|done].
  cbn [mbind result_bind]. intros [= <-].
  apply merge_sentiment_loop_result in Hloop as (Hdup & Hps & _).
  destruct (st_result st) as [|p qs]; [by split; [|left]|].
  assert (Hkeep : Forall (λ q, q ≠ "" ∧ q ≠ "neutral") (p :: qs)).
  { eapply Forall_impl; [exact Hps|]. intros q [_ ?]. by apply keep_sentiment_true. }
  split.
  - apply join_not_neutral. by inversion Hkeep as [|? ? [_ ?] _].
  - right. by rewrite strip_split_join
      by (eapply Forall_impl; [exact Hps|]; by intros q [? _]).
Qed.

Lemma merge_sentiment_columns_output_witness :
  "happy, sad, joy" ≠ "neutral"
  ∧ ("happy, sad, joy" = ""
     ∨ NoDup (strip <$> split "," "happy, sad, joy")
       ∧ Forall (λ p, p ≠ "" ∧ p ≠ "neutral") (strip <$> split "," "happy, sad, joy")
       ∧ join ", " (strip <$> split "," "happy, sad, joy") = "happy, sad, joy").
Proof.
  apply (merge_sentiment_columns_output example_lib (PStr "happy , sad")
           [PNaN; PStr "neutral, sad,joy,"]).
  vm_compute. reflexivity.
Defined.

(** X7.  Sentiments can be merged step by step: merging the string of a
    first merge with further values gives what merging all the values at
    once gives (the same string, or the same exception). *)
Theorem merge_sentiment_columns_incremental (L : pylib) (main_val : pyval)
  (other_vals more : list pyval) (out : string) :
  merge_sentiment_columns L main_val other_vals = Ok out →
  merge_sentiment_columns L (PStr out) more
  = merge_sentiment_columns L main_val (other_vals ++ more).
Proof.
  unfold merge_sentiment_columns.
  destruct (merge_sentiment_loop L (main_val :: other_vals) _) as [st|e] eqn:Hloop;
    [|done].
  cbn [mbind result_bind]. intros [= <-].
  rewrite (merge_sentiment_loop_reread _ _ _ _ Hloop).
  rewrite app_comm_cons, merge_sentiment_loop_app, Hloop. done.
Qed.

Lemma merge_sentiment_columns_incremental_witness :
  merge_sentiment_columns example_lib (PStr "happy, sad") [PStr "joy, sad"; PScalar (SInt 5)]
  = merge_sentiment_columns example_lib (PStr "happy")
      ([PStr "sad,happy"] ++ [PStr "joy, sad"; PScalar (SInt 5)]).
Proof.
  apply (merge_sentiment_columns_incremental example_lib).
  vm_compute. reflexivity.
Defined.

Lemma merge_sentiment_loop_drop (L : pylib) (v1 v2 : list pyval) (x : scalar)
  (st : merge_state string) :
  sentiment_skipped x = true ∨ sentiment_pieces x = [] →
  merge_sentiment_loop L (v1 ++ PScalar x :: v2) st = merge_sentiment_loop L (v1 ++ v2) st.
Proof.
  intros Hx. rewrite !merge_sentiment_loop_app.
  destruct (merge_sentiment_loop L v1 st) as [st'|e]; [|done].
  cbn [mbind result_bind merge_sentiment_loop pd_isna truth].
  rewrite !py_eq_str_scalar. fold (sentiment_skipped x).
  destruct (sentiment_skipped x) eqn:Hskip; [done|].
  destruct Hx as [?|Hpieces]; [done|].
  rewrite add_sentiments_add_by, foldl_add_by_unchanged; [done|].
  intros p Hp Hkeep%keep_sentiment_true. exfalso.
  unfold sentiment_pieces in Hpieces.
  by apply (filter_nil_not_elem_of _ _ p Hpieces Hkeep).
Qed.

(** X8.  A scalar that the sentiment merger skips (a missing marker, the
    empty string, ["neutral"]) or all of whose pieces it drops (only
    commas, white space and ["neutral"]) can be left out, as primary or as
    secondary value in any position. *)
Theorem merge_sentiment_columns_drop (L : pylib) (x : scalar) :
  sentiment_skipped x = true ∨ sentiment_pieces x = [] →
  (∀ main_val o1 o2,
     merge_sentiment_columns L main_val (o1 ++ PScalar x :: o2)
     = merge_sentiment_columns L main_val (o1 ++ o2))
  ∧ (∀ next rest,
       merge_sentiment_columns L (PScalar x) (next :: rest)
       = merge_sentiment_columns L next rest).
Proof.
  intros Hx. unfold merge_sentiment_columns. split.
  - intros main_val o1 o2.
    by rewrite !app_comm_cons, merge_sentiment_loop_drop.
  - intros next rest.
    by rewrite (merge_sentiment_loop_drop L [] (next :: rest) x).
Qed.

Lemma merge_sentiment_columns_drop_witness :
  (∀ main_val o1 o2,
     merge_sentiment_columns example_lib main_val (o1 ++ PStr " , neutral," :: o2)
     = merge_sentiment_columns example_lib main_val (o1 ++ o2))
  ∧ (∀ next rest,
       merge_sentiment_columns example_lib (PStr " , neutral,") (next :: rest)
       = merge_sentiment_columns example_lib next rest).
Proof.
  apply (merge_sentiment_columns_drop example_lib (SStr " , neutral,")).
  right. vm_compute. reflexivity.
Defined.

(** ** More on the row loop *)

Lemma merge_rows_ext (L : pylib) (s1 s2 s1' s2' : list (gmap string pyval))
  (idxs : list nat) (df : list (gmap string pyval)) :
  (∀ idx r, idx ∈ idxs →
     merge_row_cells L (s1 !! idx) (s2 !! idx) r
     = merge_row_cells L (s1' !! idx) (s2' !! idx) r) →
  merge_rows L s1 s2 idxs df = merge_rows L s1' s2' idxs df.
Proof.
  revert df. induction idxs as [|idx rest IH]; intros df Hext; [done|].
  cbn [merge_rows]. rewrite !merge_row_cells_eq.
  destruct (df !! idx) as [r|]; [|done].
  rewrite (Hext idx r) by by left.
  destruct (merge_row_cells L (s1' !! idx) (s2' !! idx) r) as [r'|e]; [|done].
  cbn [mbind result_bind]. apply IH. intros i ri Hi. apply Hext. by right.
Qed.

(** If the loop returns, every primary row had the four fields. *)
Lemma merge_tables_fields (L : pylib) (main_df sheet1_df sheet2_df out : list (gmap string pyval)) :
  merge_tables L main_df sheet1_df sheet2_df = Ok out → has_merged_fields main_df.
Proof.
  unfold merge_tables. intros (_ & _ & Hin)%merge_rows_inv; [|apply NoDup_seq].
  apply Forall_lookup. intros idx r Hr.
  destruct (Hin idx) as (r0 & r' & Hr0 & Hcells & _).
  { apply elem_of_seq. apply lookup_lt_Some in Hr. lia. }
  rewrite Hr in Hr0. injection Hr0 as <-.
  apply merge_row_cells_merged in Hcells
    as (_ & _ & (v1 & ? & H1 & _) & (v2 & ? & H2 & _) & (v3 & ? & H3 & _) & (v4 & ? & H4 & _)).
  repeat constructor; eauto.
Qed.

(** X9.  The loop needs the four fields in the primary table: when a
    primary row lacks [people], [places], [sentiments] or [objects] the
    loop raises; when the first row lacks [people], what it raises is the
    [KeyError] of the read at line 83. *)
Theorem merge_tables_needs_fields (L : pylib) (main_df sheet1_df sheet2_df : list (gmap string pyval)) :
  (∀ idx r col,
     main_df !! idx = Some r → col ∈ merged_fields → r !! col = None →
     ∃ e, merge_tables L main_df sheet1_df sheet2_df = Raise e)
  ∧ (∀ r,
       main_df !! 0%nat = Some r → r !! "people" = None →
       merge_tables L main_df sheet1_df sheet2_df = Raise KeyError).
Proof.
  split.
  - intros idx r col Hr Hcol Hnone.
    destruct (merge_tables L main_df sheet1_df sheet2_df) as [out|e] eqn:Hout; [|eauto].
    apply merge_tables_fields in Hout.
    eapply Forall_lookup_1 in Hout; [|exact Hr].
    eapply Forall_forall in Hout as [v Hv]; [|exact Hcol]. congruence.
  - intros r Hr Hnone. unfold merge_tables.
    destruct main_df as [|r0 rest]; [done|]. injection Hr as ->.
    cbn [length seq merge_rows]. rewrite merge_row_cells_eq. cbn [lookup list_lookup].
    unfold merge_row_cells, cell. by rewrite Hnone.
Qed.

Lemma merge_tables_needs_fields_witness :
  ∃ e, merge_tables example_lib
         [ {[ "people" := PStr "Bob"; "places" := PNaN ]} ] example_sheet1 []
       = Raise e.
Proof.
  apply (merge_tables_needs_fields example_lib
           [ {[ "people" := PStr "Bob"; "places" := PNaN ]} ] example_sheet1 [])
    with 0%nat {[ "people" := PStr "Bob"; "places" := PNaN ]} "sentiments".
  - reflexivity.
  - apply (bool_decide_unpack _). vm_compute. exact I.
  - vm_compute. reflexivity.
Defined.

(** X10.  Enrichment rows beyond the last primary row are never read:
    cutting the enrichment tables to the length of the primary table
    changes nothing. *)
Theorem merge_tables_truncates (L : pylib) (main_df sheet1_df sheet2_df : list (gmap string pyval)) :
  merge_tables L main_df sheet1_df sheet2_df
  = merge_tables L main_df (take (length main_df) sheet1_df)
      (take (length main_df) sheet2_df).
Proof.
  unfold merge_tables. apply merge_rows_ext.
  intros idx r [_ Hidx]%elem_of_seq.
  by rewrite !lookup_take_lt by lia.
Qed.

(** X13.  The loop cannot take a primary table in which one of the four
    fields already holds a native list of two or more items, as the tables
    it returns do: it raises. *)
Theorem merge_tables_rejects_lists (L : pylib) (main_df sheet1_df sheet2_df : list (gmap string pyval))
  (idx : nat) (r : gmap string pyval) (col : string) (x y : scalar) (items : list scalar) :
  main_df !! idx = Some r →
  col ∈ merged_fields →
  r !! col = Some (PList (x :: y :: items)) →
  ∃ e, merge_tables L main_df sheet1_df sheet2_df = Raise e.
Proof.
  intros Hr Hcol Hcell.
  destruct (merge_tables L main_df sheet1_df sheet2_df) as [out|e] eqn:Hout; [|eauto].
  exfalso. unfold merge_tables in Hout.
  apply merge_rows_inv in Hout as (_ & _ & Hin); [|apply NoDup_seq].
  destruct (Hin idx) as (r0 & r' & Hr0 & Hcells & _).
  { apply elem_of_seq. apply lookup_lt_Some in Hr. lia. }
  rewrite Hr in Hr0. injection Hr0 as <-.
  apply merge_row_cells_merged in Hcells
    as (_ & _ & (v1 & ? & H1 & M1 & _) & (v2 & ? & H2 & M2 & _)
        & (v3 & ? & H3 & M3 & _) & (v4 & ? & H4 & M4 & _)).
  unfold merged_fields in Hcol.
  repeat (apply elem_of_cons in Hcol as [->|Hcol]);
    [rewrite Hcell in H1; injection H1 as <-
    |rewrite Hcell in H2; injection H2 as <-
    |rewrite Hcell in H3; injection H3 as <-
    |rewrite Hcell in H4; injection H4 as <-
    |by apply elem_of_nil in Hcol]; done.
Qed.

Lemma merge_tables_rejects_lists_witness :
  ∃ e, merge_tables example_lib
         [ {[ "title" := PStr "Ode"; "people" := PList [SStr "Alice"; SStr "Bob"];
              "places" := PList []; "sentiments" := PStr "happy, sad";
              "objects" := PList [SStr "chair"; SStr "table"] ]} ]
         example_sheet1 []
       = Raise e.
Proof.
  eapply (merge_tables_rejects_lists example_lib _ _ _ 0%nat _ "people").
  - reflexivity.
  - apply (bool_decide_unpack _). vm_compute. exact I.
  - vm_compute. reflexivity.
Defined.
